(** * Pagination: the page window and the navigation handlers

    A shallow embedding of [src/components/Pagination/Pagination.jsx].

    JavaScript numbers are modelled as [Z]: the component is used with
    integer props (record counts, page sizes, page numbers), and every
    operation it performs on them ([+], [-], [*], [Math.max], [Math.min],
    comparison) is exact on integers.  The page array mixes numbers with the
    two marker strings ['LEFT'] and ['RIGHT']; it is a [list PageItem]. *)

From Stdlib Require Import String DecimalString DecimalZ DecimalPos.
From Stdlib Require Import ZArith List Bool Lia Sorted.
Import ListNotations.
Local Open Scope Z_scope.

(** ** The page array *)

(** An element of the array built by the [pages] memo: a page number, or one
    of the constants [LEFT_PAGE = 'LEFT'] and [RIGHT_PAGE = 'RIGHT']. *)
Inductive PageItem : Type :=
| Page (n : Z)
| LEFT_PAGE
| RIGHT_PAGE.

(** [range_from from count] is [from, from + 1, ...], [count] numbers. *)
Fixpoint range_from (from : Z) (count : nat) : list Z :=
  match count with
  | O => []
  | S k => from :: range_from (from + 1) k
  end.

(** Modelled from the spec: [range] is imported from [../../utils/common],
    which is not among the sources.  The spec uses it as the inclusive
    interval of integers: [range(1, totalPages)] is "Page(1) ... Page(totalPages)",
    the extra pages are "pages [startPage - spillOffset, startPage - 1]", and
    [totalPages = 0] gives the empty sequence, so an interval whose upper end
    is below its lower end is empty. *)
Definition range (from to : Z) : list Z :=
  range_from from (Z.to_nat (to - from + 1)).

(** A run of page numbers as array elements. *)
Definition numbers (l : list Z) : list PageItem := map Page l.

(** The body of the [pages] memo, a function of its three dependencies. *)
Definition pages (currentPage totalPages pageNeighbors : Z) : list PageItem :=
  let totalNumbers := pageNeighbors * 2 + 3 in
  let totalBlocks := totalNumbers + 2 in
  if totalPages >? totalBlocks then
    let startPage := Z.max 2 (currentPage - pageNeighbors) in
    let endPage := Z.min (totalPages - 1) (currentPage + pageNeighbors) in
    let pages := numbers (range startPage endPage) in
    let hasLeftSpill := startPage >? 2 in
    let hasRightSpill := totalPages - endPage >? 1 in
    let spillOffset := totalNumbers - (Z.of_nat (length pages) + 1) in
    let pages :=
      if hasLeftSpill && negb hasRightSpill then
        let extraPages := numbers (range (startPage - spillOffset) (startPage - 1)) in
        [LEFT_PAGE] ++ extraPages ++ pages
      else if negb hasLeftSpill && hasRightSpill then
        let extraPages := numbers (range (endPage + 1) (endPage + spillOffset)) in
        pages ++ extraPages ++ [RIGHT_PAGE]
      else if hasLeftSpill && hasRightSpill then
        [LEFT_PAGE] ++ pages ++ [RIGHT_PAGE]
      else pages in
    [Page 1] ++ pages ++ [Page totalPages]
  else
    numbers (range 1 totalPages).

(** ** Observations on a page array *)

Definition is_ellipsis (p : PageItem) : bool :=
  match p with
  | Page _ => false
  | LEFT_PAGE | RIGHT_PAGE => true
  end.

(** Does the array hold an ellipsis marker anywhere? *)
Definition has_ellipsis (l : list PageItem) : bool := existsb is_ellipsis l.

(** Are two neighbouring elements both ellipsis markers? *)
Fixpoint adjacent_ellipses (l : list PageItem) : bool :=
  match l with
  | a :: (b :: _) as t => (is_ellipsis a && is_ellipsis b) || adjacent_ellipses t
  | _ => false
  end.

(** The first page number of an array, markers skipped. *)
Fixpoint first_page (l : list PageItem) : option Z :=
  match l with
  | [] => None
  | Page n :: _ => Some n
  | _ :: t => first_page t
  end.

(** The last page number of an array, markers skipped. *)
Definition last_page (l : list PageItem) : option Z := first_page (rev l).

(** ** The component: props, state and derived values *)

(** What the [onPageChanged] prop can hold.  Only a function can be called;
    [undefined], [null] and the other falsy values fail the guard
    [if (onPageChanged)]; any other value passes the guard and cannot be
    called. *)
Inductive JsCallback : Type :=
| CbFunction
| CbUndefined
| CbNull
| CbValue (truthy : bool).

Definition truthy (cb : JsCallback) : bool :=
  match cb with
  | CbFunction => true
  | CbUndefined | CbNull => false
  | CbValue b => b
  end.

(** The props destructured by [Pagination]; [props_pageNeighbors] is
    [props.pageNeighbors]. *)
Record Props : Type := {
  onPageChanged : JsCallback;
  totalRecords : Z;
  pageLimit : Z;
  props_pageNeighbors : Z
}.

(** [Pagination.defaultProps], for a given callback and record count. *)
Definition defaultProps (cb : JsCallback) (records : Z) : Props :=
  {| onPageChanged := cb; totalRecords := records; pageLimit := 10;
     props_pageNeighbors := 1 |}.

(** One execution of the function body: the props it was called with and the
    value of the [currentPage] state it read.  The handlers created during
    that execution close over these values. *)
Record Rendering : Type := {
  props : Props;
  currentPage : Z
}.

(** [useState(1)]: the first rendering. *)
Definition mount (p : Props) : Rendering := {| props := p; currentPage := 1 |}.

(** [Math.ceil(a / b)] on integers, for [b <> 0] ([Z.div] rounds down). *)
Definition ceil_div (a b : Z) : Z := - ((- a) / b).

Definition pageNeighbors (r : Rendering) : Z :=
  Z.max 0 (Z.min (props_pageNeighbors (props r)) 2).

(** [Math.ceil(totalRecords / pageLimit)]; the model covers [pageLimit <> 0]
    (JavaScript gives [NaN] or an infinity at [pageLimit = 0]). *)
Definition totalPages (r : Rendering) : Z :=
  ceil_div (totalRecords (props r)) (pageLimit (props r)).

(** The page array of a rendering. *)
Definition rendered_pages (r : Rendering) : list PageItem :=
  pages (currentPage r) (totalPages r) (pageNeighbors r).

(** ** Handlers and their effects *)

(** The object passed to [onPageChanged]. *)
Record PageInfo : Type := {
  info_currentPage : Z;
  info_totalPages : Z;
  info_pageLimit : Z;
  info_totalRecords : Z
}.

(** What a handler does to the outside: it queues a state update, or it
    calls the [onPageChanged] function. *)
Inductive Effect : Type :=
| SetCurrentPage (page : Z)
| OnPageChanged (info : PageInfo).

Inductive JsError : Type :=
| TypeError.

Inductive Completion (A : Type) : Type :=
| Returned (a : A)
| Threw (e : JsError).
Arguments Returned {A} a.
Arguments Threw {A} e.

(** A handler run: the effects in program order and how the run ended. *)
Definition Handler (A : Type) : Type := (list Effect * Completion A)%type.

Definition ret {A : Type} (a : A) : Handler A := ([], Returned a).

Definition bind {A B : Type} (h : Handler A) (k : A -> Handler B) : Handler B :=
  match h with
  | (es, Returned a) => let (es', c) := k a in (es ++ es', c)
  | (es, Threw e) => (es, Threw e)
  end.

Notation "h ;; k" := (bind h (fun _ => k))
  (at level 61, right associativity).

Definition effects {A : Type} (h : Handler A) : list Effect := fst h.
Definition completion {A : Type} (h : Handler A) : Completion A := snd h.

(** [setCurrentPage(v)] queues the update; the closed-over [currentPage]
    keeps its value. *)
Definition setCurrentPage (v : Z) : Handler unit := ([SetCurrentPage v], Returned tt).

(** [cb(info)]: calling anything but a function throws. *)
Definition call (cb : JsCallback) (info : PageInfo) : Handler unit :=
  match cb with
  | CbFunction => ([OnPageChanged info], Returned tt)
  | _ => ([], Threw TypeError)
  end.

Definition handleGoToPage (r : Rendering) (page : Z) : Handler unit :=
  setCurrentPage (Z.max 0 (Z.min page (totalPages r))) ;;
  if truthy (onPageChanged (props r)) then
    call (onPageChanged (props r))
      {| info_currentPage := currentPage r;
         info_totalPages := totalPages r;
         info_pageLimit := pageLimit (props r);
         info_totalRecords := totalRecords (props r) |}
  else ret tt.

Definition handleMoveLeft (r : Rendering) : Handler unit :=
  handleGoToPage r (currentPage r - 1).

Definition handleMoveRight (r : Rendering) : Handler unit :=
  handleGoToPage r (currentPage r + 1).

(** The [onClick] of the button rendered for [page]. *)
Definition handleClick (r : Rendering) (page : PageItem) : Handler unit :=
  match page with
  | LEFT_PAGE => handleMoveLeft r
  | RIGHT_PAGE => handleMoveRight r
  | Page n => handleGoToPage r n
  end.

(** The state value after the queued updates are applied: the last one wins. *)
Fixpoint commit (current : Z) (es : list Effect) : Z :=
  match es with
  | [] => current
  | SetCurrentPage v :: t => commit v t
  | OnPageChanged _ :: t => commit current t
  end.

(** The payloads [onPageChanged] was called with, in order. *)
Fixpoint notifications (es : list Effect) : list PageInfo :=
  match es with
  | [] => []
  | OnPageChanged info :: t => info :: notifications t
  | SetCurrentPage _ :: t => notifications t
  end.

(** The rendering that follows a handler run. *)
Definition after {A : Type} (r : Rendering) (h : Handler A) : Rendering :=
  {| props := props r; currentPage := commit (currentPage r) (effects h) |}.

(** A click that does nothing: no effect at all, and the same page after. *)
Definition click_is_noop (r : Rendering) (page : PageItem) : Prop :=
  effects (handleClick r page) = [] /\
  currentPage (after r (handleClick r page)) = currentPage r.

(** The object literal that [handleGoToPage] passes to the callback, built
    from the values of the rendering. *)
Definition payload_of (r : Rendering) : PageInfo :=
  {| info_currentPage := currentPage r;
     info_totalPages := totalPages r;
     info_pageLimit := pageLimit (props r);
     info_totalRecords := totalRecords (props r) |}.

(** The example of the source comment: ten pages, two neighbours, page 6. *)
Definition ten_pages_at_six : Rendering :=
  {| props := {| onPageChanged := CbFunction; totalRecords := 100;
                 pageLimit := 10; props_pageNeighbors := 2 |};
     currentPage := 6 |}.

(** ** Labels, contents and the rendered buttons *)

(** A page number in a template literal: its decimal numeral (page numbers
    are integers far below the size at which JavaScript switches to the
    exponent form). *)
Definition number_to_string (n : Z) : string :=
  NilZero.string_of_int (Z.to_int n).

(** What a button shows: the string ['...'] or a page number. *)
Inductive Content : Type :=
| Text (s : string)
| Number (n : Z).

Module PAGE_INFO.

Definition label (page : PageItem) : string :=
  match page with
  | LEFT_PAGE => "Previous page"
  | RIGHT_PAGE => "Next page"
  | Page n => "Go to page " ++ number_to_string n
  end%string.

Definition content (page : PageItem) : Content :=
  match page with
  | LEFT_PAGE | RIGHT_PAGE => Text "..."
  | Page n => Number n
  end.

End PAGE_INFO.

(** [currentPage === page]: a marker string is never equal to a number. *)
Definition isActivePage (r : Rendering) (page : PageItem) : bool :=
  match page with
  | Page n => currentPage r =? n
  | LEFT_PAGE | RIGHT_PAGE => false
  end.

(** The props of a rendered [Button] that depend on the page: its key, the
    flag that selects the highlight colours, the two label attributes, the
    child and the click handler. *)
Record Button : Type := {
  key : nat;
  active : bool;
  title : string;
  aria_label : string;
  children : Content;
  onClick : Handler unit
}.

(** [array.map((element, index) => ...)], counting from [index]. *)
Fixpoint map_index {A B : Type} (f : A -> nat -> B) (l : list A) (index : nat)
  : list B :=
  match l with
  | [] => []
  | x :: t => f x index :: map_index f t (S index)
  end.

(** The buttons returned by the component. *)
Definition render (r : Rendering) : list Button :=
  map_index
    (fun page index =>
       {| key := index;
          active := isActivePage r page;
          title := PAGE_INFO.label page;
          aria_label := PAGE_INFO.label page;
          children := PAGE_INFO.content page;
          onClick := handleClick r page |})
    (rendered_pages r) 0.

(** The renderings a user can reach with fixed props: the first one, and the
    one that follows a click on a button of a reachable rendering. *)
Inductive Reachable (p : Props) : Rendering -> Prop :=
| reach_mount : Reachable p (mount p)
| reach_click (r : Rendering) (b : Button) :
    Reachable p r -> In b (render r) -> Reachable p (after r (onClick b)).

(** The page numbers of an array, in order, markers dropped. *)
Fixpoint page_numbers (l : list PageItem) : list Z :=
  match l with
  | [] => []
  | Page n :: t => n :: page_numbers t
  | _ :: t => page_numbers t
  end.

(** ** Sample runs *)

Example pages_10_6_2 :
  pages 6 10 2 =
  [Page 1; LEFT_PAGE; Page 4; Page 5; Page 6; Page 7; Page 8; RIGHT_PAGE; Page 10].
Proof. reflexivity. Qed.

Example pages_10_1_1 :
  pages 1 10 1 = [Page 1; Page 2; Page 3; Page 4; Page 5; RIGHT_PAGE; Page 10].
Proof. reflexivity. Qed.

Example pages_10_10_0 :
  pages 10 10 0 = [Page 1; LEFT_PAGE; Page 8; Page 9; Page 10].
Proof. reflexivity. Qed.

Example go_to_page_sample :
  handleGoToPage {| props := defaultProps CbFunction 95; currentPage := 3 |} 7 =
  ([SetCurrentPage 7;
    OnPageChanged {| info_currentPage := 3; info_totalPages := 10;
                     info_pageLimit := 10; info_totalRecords := 95 |}],
   Returned tt).
Proof. reflexivity. Qed.

(** ** Facts about [range] *)

Lemma range_from_length (a : Z) (n : nat) : length (range_from a n) = n.
Proof.
  revert a; induction n as [|n IH]; intros a; simpl; [reflexivity|].
  now rewrite IH.
Qed.

Lemma range_from_app (a : Z) (n m : nat) :
  range_from a (n + m) = range_from a n ++ range_from (a + Z.of_nat n) m.
Proof.
  revert a; induction n as [|n IH]; intros a.
  - simpl. now rewrite Z.add_0_r.
  - cbn [Nat.add range_from app]. rewrite IH. do 3 f_equal. lia.
Qed.

Lemma range_from_In (x a : Z) (n : nat) :
  In x (range_from a n) <-> a <= x < a + Z.of_nat n.
Proof.
  revert a; induction n as [|n IH]; intros a; cbn [range_from In].
  - lia.
  - rewrite IH. lia.
Qed.

Lemma range_length (a b : Z) :
  a <= b + 1 -> Z.of_nat (length (range a b)) = b - a + 1.
Proof. intros H. unfold range. rewrite range_from_length. lia. Qed.

Lemma range_empty (a b : Z) : b < a -> range a b = [].
Proof.
  intros H. unfold range.
  replace (Z.to_nat (b - a + 1)) with O by lia. reflexivity.
Qed.

Lemma range_cons (a b : Z) : a <= b -> range a b = a :: range (a + 1) b.
Proof.
  intros H. unfold range.
  replace (Z.to_nat (b - a + 1)) with (S (Z.to_nat (b - (a + 1) + 1))) by lia.
  reflexivity.
Qed.

Lemma range_app (a b c : Z) :
  a <= b + 1 -> b <= c -> range a b ++ range (b + 1) c = range a c.
Proof.
  intros Hab Hbc. unfold range.
  replace (Z.to_nat (c - a + 1))
    with (Z.to_nat (b - a + 1) + Z.to_nat (c - (b + 1) + 1))%nat by lia.
  rewrite range_from_app. do 2 f_equal. lia.
Qed.

Lemma range_snoc (a b : Z) : a <= b -> range a b = range a (b - 1) ++ [b].
Proof.
  intros H. rewrite <- (range_app a (b - 1) b) by lia.
  f_equal. replace (b - 1 + 1) with b by lia.
  rewrite range_cons by lia. now rewrite range_empty by lia.
Qed.

Lemma range_In (x a b : Z) : In x (range a b) <-> a <= x <= b.
Proof. unfold range. rewrite range_from_In. lia. Qed.

Lemma numbers_length (l : list Z) : length (numbers l) = length l.
Proof. apply length_map. Qed.

Lemma numbers_app (l l' : list Z) : numbers (l ++ l') = numbers l ++ numbers l'.
Proof. apply map_app. Qed.

Lemma numbers_In (x : Z) (l : list Z) : In (Page x) (numbers l) <-> In x l.
Proof.
  unfold numbers. rewrite in_map_iff. split.
  - intros (y & Hy & Hin). now injection Hy as ->.
  - intros Hin. now exists x.
Qed.

Lemma numbers_no_ellipsis (l : list Z) : has_ellipsis (numbers l) = false.
Proof. induction l as [|x l IH]; simpl; [reflexivity | exact IH]. Qed.

Lemma numbers_not_In (p : PageItem) (l : list Z) :
  is_ellipsis p = true -> ~ In p (numbers l).
Proof.
  intros Hp Hin. unfold numbers in Hin. apply in_map_iff in Hin.
  destruct Hin as (y & <- & _). discriminate Hp.
Qed.

(** ** The shape of the page array *)

Section Shape.
Variables currentPage totalPages pageNeighbors : Z.
Hypothesis neighbors_nonneg : 0 <= pageNeighbors.

(** Few pages: all of them. *)
Lemma pages_all :
  totalPages <= pageNeighbors * 2 + 5 ->
  pages currentPage totalPages pageNeighbors = numbers (range 1 totalPages).
Proof.
  intros H. unfold pages. cbv zeta.
  destruct (Z.gtb_spec totalPages (pageNeighbors * 2 + 3 + 2)); [lia | reflexivity].
Qed.

Hypothesis many_pages : pageNeighbors * 2 + 5 < totalPages.

(** Near the start: pages 2 .. 2n+3, then the right marker. *)
Lemma pages_right_spill :
  1 <= currentPage -> currentPage - pageNeighbors <= 2 ->
  pages currentPage totalPages pageNeighbors =
  [Page 1] ++ numbers (range 2 (pageNeighbors * 2 + 3))
           ++ [RIGHT_PAGE; Page totalPages].
Proof.
  intros Hlo Hnear. unfold pages. cbv zeta.
  destruct (Z.gtb_spec totalPages (pageNeighbors * 2 + 3 + 2)); [|lia].
  replace (Z.max 2 (currentPage - pageNeighbors)) with 2 by lia.
  replace (Z.min (totalPages - 1) (currentPage + pageNeighbors))
    with (currentPage + pageNeighbors) by lia.
  rewrite numbers_length, range_length by lia.
  destruct (Z.gtb_spec 2 2); [lia|].
  destruct (Z.gtb_spec (totalPages - (currentPage + pageNeighbors)) 1); [|lia].
  cbn [andb negb].
  rewrite (app_assoc (numbers _)), <- numbers_app, range_app by lia.
  rewrite <- app_assoc. do 4 f_equal. lia.
Qed.

(** Near the end: the left marker, then the last 2n+2 pages before the
    terminal one. *)
Lemma pages_left_spill :
  currentPage <= totalPages -> totalPages - 1 <= currentPage + pageNeighbors ->
  pages currentPage totalPages pageNeighbors =
  [Page 1; LEFT_PAGE]
    ++ numbers (range (totalPages - pageNeighbors * 2 - 2) (totalPages - 1))
    ++ [Page totalPages].
Proof.
  intros Hhi Hnear. unfold pages. cbv zeta.
  destruct (Z.gtb_spec totalPages (pageNeighbors * 2 + 3 + 2)); [|lia].
  replace (Z.max 2 (currentPage - pageNeighbors))
    with (currentPage - pageNeighbors) by lia.
  replace (Z.min (totalPages - 1) (currentPage + pageNeighbors))
    with (totalPages - 1) by lia.
  rewrite numbers_length, range_length by lia.
  destruct (Z.gtb_spec (currentPage - pageNeighbors) 2); [|lia].
  destruct (Z.gtb_spec (totalPages - (totalPages - 1)) 1); [lia|].
  cbn [andb negb].
  rewrite <- numbers_app.
  replace (range (currentPage - pageNeighbors) (totalPages - 1))
    with (range (currentPage - pageNeighbors - 1 + 1) (totalPages - 1))
    by (f_equal; lia).
  rewrite range_app by lia.
  cbn [app]. do 5 f_equal. lia.
Qed.

(** In the middle: both markers around the neighbour window. *)
Lemma pages_both_spill :
  2 < currentPage - pageNeighbors -> currentPage + pageNeighbors < totalPages - 1 ->
  pages currentPage totalPages pageNeighbors =
  [Page 1; LEFT_PAGE]
    ++ numbers (range (currentPage - pageNeighbors) (currentPage + pageNeighbors))
    ++ [RIGHT_PAGE; Page totalPages].
Proof.
  intros Hl Hr. unfold pages. cbv zeta.
  destruct (Z.gtb_spec totalPages (pageNeighbors * 2 + 3 + 2)); [|lia].
  replace (Z.max 2 (currentPage - pageNeighbors))
    with (currentPage - pageNeighbors) by lia.
  replace (Z.min (totalPages - 1) (currentPage + pageNeighbors))
    with (currentPage + pageNeighbors) by lia.
  destruct (Z.gtb_spec (currentPage - pageNeighbors) 2); [|lia].
  destruct (Z.gtb_spec (totalPages - (currentPage + pageNeighbors)) 1); [|lia].
  cbn [andb negb app]. now rewrite <- app_assoc.
Qed.
End Shape.

(** With many pages and the current page in range, the array has one of the
    three shapes above. *)
Ltac spill_cases :=
  match goal with
  | |- context [pages ?c ?t ?n] =>
      destruct (Z_le_gt_dec (c - n) 2);
      [ rewrite (pages_right_spill c t n) by lia
      | destruct (Z_le_gt_dec (t - 1) (c + n));
        [ rewrite (pages_left_spill c t n) by lia
        | rewrite (pages_both_spill c t n) by lia ] ]
  end.

(** Few pages or many. *)
Ltac few_or_many t n :=
  destruct (Z_le_gt_dec t (n * 2 + 5));
  [ rewrite pages_all by lia | spill_cases ].

Lemma range_from_seq (k n : nat) :
  range_from (Z.of_nat k) n = map Z.of_nat (seq k n).
Proof.
  revert k; induction n as [|n IH]; intros k; cbn [range_from seq map].
  - reflexivity.
  - f_equal. rewrite <- IH. f_equal. lia.
Qed.

Lemma first_page_numbers_app (x : Z) (l : list Z) (rest : list PageItem) :
  first_page (numbers (x :: l) ++ rest) = Some x.
Proof. reflexivity. Qed.

Lemma last_page_snoc (l : list PageItem) (x : Z) :
  last_page (l ++ [Page x]) = Some x.
Proof. unfold last_page. now rewrite rev_app_distr. Qed.

Lemma adjacent_ellipses_page (n : Z) (l : list PageItem) :
  adjacent_ellipses (Page n :: l) = adjacent_ellipses l.
Proof. destruct l; reflexivity. Qed.

Lemma adjacent_ellipses_before_page (p : PageItem) (n : Z) (l : list PageItem) :
  adjacent_ellipses (p :: Page n :: l) = adjacent_ellipses l.
Proof. destruct p, l; reflexivity. Qed.

Lemma adjacent_ellipses_numbers (l : list Z) (rest : list PageItem) :
  adjacent_ellipses (numbers l ++ rest) = adjacent_ellipses rest.
Proof.
  induction l as [|x l IH]; [reflexivity|].
  cbn [numbers map app]. rewrite adjacent_ellipses_page. exact IH.
Qed.

(** An element that occurs once splits the list in one way only. *)
Lemma split_at_unique {A : Type} (x : A) (xs ys pre post : list A) :
  ~ In x xs -> ~ In x ys ->
  xs ++ x :: ys = pre ++ x :: post -> pre = xs /\ post = ys.
Proof.
  intros Hxs Hys. revert pre.
  induction xs as [|a xs IH]; intros [|p pre] Heq; cbn [app] in Heq.
  - injection Heq as <-. now split.
  - injection Heq as <- ->. exfalso. apply Hys, in_elt.
  - injection Heq as -> _. exfalso. apply Hxs. now left.
  - injection Heq as <- Heq.
    destruct (IH (fun H => Hxs (or_intror H)) pre Heq) as [-> ->]. now split.
Qed.

(** ** The page window *)

(** C1: with at least one page, the current page in [1, totalPages] and the
    neighbour count in [0, 2], the page array begins with page 1 and ends
    with page [totalPages]. *)
Theorem pages_first_and_last (currentPage totalPages pageNeighbors : Z) :
  1 <= totalPages ->
  1 <= currentPage <= totalPages ->
  0 <= pageNeighbors <= 2 ->
  hd_error (pages currentPage totalPages pageNeighbors) = Some (Page 1) /\
  hd_error (rev (pages currentPage totalPages pageNeighbors)) = Some (Page totalPages).
Proof.
  intros Ht Hc Hn. few_or_many totalPages pageNeighbors.
  - split.
    + now rewrite range_cons by lia.
    + rewrite range_snoc, numbers_app, rev_app_distr by lia. reflexivity.
  - split; [reflexivity|]. now rewrite !rev_app_distr.
  - split; [reflexivity|]. now rewrite !rev_app_distr.
  - split; [reflexivity|]. now rewrite !rev_app_distr.
Qed.

Lemma pages_first_and_last_witness :
  hd_error (pages 6 10 2) = Some (Page 1) /\
  hd_error (rev (pages 6 10 2)) = Some (Page 10).
Proof. apply (pages_first_and_last 6 10 2); lia. Defined.

(** C2: with the neighbour count in [0, 2] and at most
    [pageNeighbors * 2 + 5] pages, the page array is exactly page 1, page 2,
    ..., page [totalPages], whatever the current page: no ellipsis marker,
    and nothing at all when there is no page. *)
Theorem pages_few_shows_all (currentPage totalPages pageNeighbors : Z) :
  0 <= pageNeighbors <= 2 ->
  0 <= totalPages <= pageNeighbors * 2 + 5 ->
  pages currentPage totalPages pageNeighbors =
    map (fun i => Page (Z.of_nat i)) (seq 1 (Z.to_nat totalPages)) /\
  has_ellipsis (pages currentPage totalPages pageNeighbors) = false /\
  (totalPages = 0 -> pages currentPage totalPages pageNeighbors = []).
Proof.
  intros Hn Ht. rewrite pages_all by lia. split; [|split].
  - unfold range, numbers.
    replace (totalPages - 1 + 1) with totalPages by lia.
    change 1 with (Z.of_nat 1). rewrite range_from_seq. apply map_map.
  - apply numbers_no_ellipsis.
  - intros ->. reflexivity.
Qed.

Lemma pages_few_shows_all_witness :
  pages 4 7 1 = map (fun i => Page (Z.of_nat i)) (seq 1 (Z.to_nat 7)) /\
  has_ellipsis (pages 4 7 1) = false /\
  (7 = 0 -> pages 4 7 1 = []).
Proof. apply (pages_few_shows_all 4 7 1); lia. Defined.

(** C3: with the neighbour count in [0, 2], more than
    [pageNeighbors * 2 + 5] pages and the current page in [1, totalPages],
    the page array has exactly [pageNeighbors * 2 + 5] elements, markers
    included, whether one side spills or both. *)
Theorem pages_many_length (currentPage totalPages pageNeighbors : Z) :
  0 <= pageNeighbors <= 2 ->
  pageNeighbors * 2 + 5 < totalPages ->
  1 <= currentPage <= totalPages ->
  Z.of_nat (length (pages currentPage totalPages pageNeighbors)) =
  pageNeighbors * 2 + 5.
Proof.
  intros Hn Ht Hc. spill_cases;
    rewrite !length_app, numbers_length; cbn [length];
    rewrite !Nat2Z.inj_add, range_length by lia; lia.
Qed.

Lemma pages_many_length_witness :
  Z.of_nat (length (pages 10 10 0)) = 0 * 2 + 5.
Proof. apply (pages_many_length 10 10 0); lia. Defined.

(** C4: with at least one page, the current page in [1, totalPages] and the
    neighbour count in [0, 2], the current page is an element of the page
    array. *)
Theorem pages_contains_current (currentPage totalPages pageNeighbors : Z) :
  1 <= totalPages ->
  1 <= currentPage <= totalPages ->
  0 <= pageNeighbors <= 2 ->
  In (Page currentPage) (pages currentPage totalPages pageNeighbors).
Proof.
  intros Ht Hc Hn. few_or_many totalPages pageNeighbors.
  - apply numbers_In, range_In. lia.
  - destruct (Z.eq_dec currentPage 1) as [->|Hne]; [now left|].
    apply in_or_app; right. apply in_or_app; left.
    apply numbers_In, range_In. lia.
  - destruct (Z.eq_dec currentPage totalPages) as [->|Hne].
    + apply in_or_app; right. apply in_or_app; right. now left.
    + apply in_or_app; right. apply in_or_app; left.
      apply numbers_In, range_In. lia.
  - apply in_or_app; right. apply in_or_app; left.
    apply numbers_In, range_In. lia.
Qed.

Lemma pages_contains_current_witness : In (Page 1) (pages 1 10 1).
Proof. apply (pages_contains_current 1 10 1); lia. Defined.

Lemma not_In_app {A : Type} (x : A) (l l' : list A) :
  ~ In x l -> ~ In x l' -> ~ In x (l ++ l').
Proof. intros Hl Hl' Hin. apply in_app_or in Hin. tauto. Qed.

Lemma absent_no_split {A : Type} (x : A) (l pre post : list A) :
  ~ In x l -> l <> pre ++ x :: post.
Proof. intros Hl ->. apply Hl, in_elt. Qed.

(** A marker does not occur in a list built from page numbers and the other
    marker. *)
Ltac absent_marker :=
  repeat first
    [ apply not_In_app
    | apply numbers_not_In; reflexivity
    | cbn [In]; intuition discriminate ].

(** C5: with the current page in [1, totalPages] and the neighbour count in
    [0, 2], no two ellipsis markers are neighbours, the first page number
    after a [LEFT_PAGE] marker is greater than 2, and the last page number
    before a [RIGHT_PAGE] marker is less than [totalPages - 1]. *)
Theorem pages_ellipses_hide_pages (currentPage totalPages pageNeighbors : Z) :
  0 <= totalPages ->
  1 <= currentPage <= totalPages ->
  0 <= pageNeighbors <= 2 ->
  adjacent_ellipses (pages currentPage totalPages pageNeighbors) = false /\
  (forall pre post,
      pages currentPage totalPages pageNeighbors = pre ++ LEFT_PAGE :: post ->
      exists n, first_page post = Some n /\ 2 < n) /\
  (forall pre post,
      pages currentPage totalPages pageNeighbors = pre ++ RIGHT_PAGE :: post ->
      exists n, last_page pre = Some n /\ n < totalPages - 1).
Proof.
  intros Ht Hc Hn. few_or_many totalPages pageNeighbors.
  - (* all pages, no marker *)
    split; [|split].
    + rewrite <- (app_nil_r (numbers _)). apply adjacent_ellipses_numbers.
    + intros pre post Heq. exfalso. revert Heq. apply absent_no_split. absent_marker.
    + intros pre post Heq. exfalso. revert Heq. apply absent_no_split. absent_marker.
  - (* right marker only *)
    split; [|split].
    + cbn [app]. now rewrite adjacent_ellipses_page, adjacent_ellipses_numbers.
    + intros pre post Heq. exfalso. revert Heq. apply absent_no_split. absent_marker.
    + intros pre post Heq. rewrite app_assoc in Heq.
      change (?l ++ [RIGHT_PAGE; ?p]) with (l ++ RIGHT_PAGE :: [p]) in Heq.
      apply split_at_unique in Heq as [-> _]; [|absent_marker..].
      exists (pageNeighbors * 2 + 3).
      rewrite (range_snoc 2), numbers_app, app_assoc by lia.
      split; [apply last_page_snoc | lia].
  - (* left marker only *)
    split; [|split].
    + rewrite (range_cons (totalPages - pageNeighbors * 2 - 2)) by lia.
      cbn [app numbers map].
      rewrite adjacent_ellipses_page, adjacent_ellipses_before_page.
      change (map Page ?l) with (numbers l).
      now rewrite adjacent_ellipses_numbers.
    + intros pre post Heq.
      change ([Page 1; LEFT_PAGE] ++ ?l) with ([Page 1] ++ LEFT_PAGE :: l) in Heq.
      apply split_at_unique in Heq as [_ ->]; [|absent_marker..].
      exists (totalPages - pageNeighbors * 2 - 2).
      rewrite range_cons by lia. split; [apply first_page_numbers_app | lia].
    + intros pre post Heq. exfalso. revert Heq. apply absent_no_split. absent_marker.
  - (* both markers *)
    split; [|split].
    + rewrite (range_cons (currentPage - pageNeighbors)) by lia.
      cbn [app numbers map].
      rewrite adjacent_ellipses_page, adjacent_ellipses_before_page.
      change (map Page ?l) with (numbers l).
      now rewrite adjacent_ellipses_numbers.
    + intros pre post Heq.
      change ([Page 1; LEFT_PAGE] ++ ?l) with ([Page 1] ++ LEFT_PAGE :: l) in Heq.
      apply split_at_unique in Heq as [_ ->]; [|absent_marker..].
      exists (currentPage - pageNeighbors).
      rewrite range_cons by lia. split; [apply first_page_numbers_app | lia].
    + intros pre post Heq. rewrite app_assoc in Heq.
      change (?l ++ [RIGHT_PAGE; ?p]) with (l ++ RIGHT_PAGE :: [p]) in Heq.
      apply split_at_unique in Heq as [-> _]; [|absent_marker..].
      exists (currentPage + pageNeighbors).
      rewrite (range_snoc (currentPage - pageNeighbors)), numbers_app, app_assoc
        by lia.
      split; [apply last_page_snoc | lia].
Qed.

Lemma pages_ellipses_hide_pages_witness :
  adjacent_ellipses (pages 6 10 2) = false /\
  (forall pre post,
      pages 6 10 2 = pre ++ LEFT_PAGE :: post ->
      exists n, first_page post = Some n /\ 2 < n) /\
  (forall pre post,
      pages 6 10 2 = pre ++ RIGHT_PAGE :: post ->
      exists n, last_page pre = Some n /\ n < 10 - 1).
Proof. apply (pages_ellipses_hide_pages 6 10 2); lia. Defined.

(** ** The page count *)

(** [ceil_div a b] is the least integer not below [a / b]. *)
Lemma ceil_div_spec (a b : Z) :
  0 < b -> b * (ceil_div a b - 1) < a <= b * ceil_div a b.
Proof.
  intros Hb. unfold ceil_div.
  pose proof (Z.div_mod (- a) b) as Hdm.
  pose proof (Z.mod_pos_bound (- a) b Hb) as Hm. nia.
Qed.

Lemma totalPages_nonneg (r : Rendering) :
  0 <= totalRecords (props r) -> 0 < pageLimit (props r) -> 0 <= totalPages r.
Proof.
  intros Hrec Hlim. unfold totalPages.
  pose proof (ceil_div_spec (totalRecords (props r)) (pageLimit (props r)) Hlim).
  nia.
Qed.

Example totalPages_sample :
  totalPages (mount (defaultProps CbFunction 95)) = 10 /\
  totalPages (mount (defaultProps CbFunction 100)) = 10 /\
  totalPages (mount (defaultProps CbFunction 101)) = 11 /\
  totalPages (mount (defaultProps CbFunction 0)) = 0.
Proof. repeat split. Qed.

(** ** The navigation handlers *)

(** The effects of [handleGoToPage]: the update is queued first, then a
    callback that is a function is called; a truthy value that is not a
    function makes the call throw. *)
Lemma handleGoToPage_run (r : Rendering) (page : Z) :
  handleGoToPage r page =
  match onPageChanged (props r) with
  | CbFunction =>
      ([SetCurrentPage (Z.max 0 (Z.min page (totalPages r)));
        OnPageChanged (payload_of r)], Returned tt)
  | CbValue true =>
      ([SetCurrentPage (Z.max 0 (Z.min page (totalPages r)))], Threw TypeError)
  | _ => ([SetCurrentPage (Z.max 0 (Z.min page (totalPages r)))], Returned tt)
  end.
Proof.
  unfold handleGoToPage.
  destruct (onPageChanged (props r)) as [| | |[|]]; reflexivity.
Qed.

Lemma handleGoToPage_commit (r : Rendering) (page : Z) :
  currentPage (after r (handleGoToPage r page)) =
  Z.max 0 (Z.min page (totalPages r)).
Proof.
  rewrite handleGoToPage_run.
  destruct (onPageChanged (props r)) as [| | |[|]]; reflexivity.
Qed.

Lemma handleGoToPage_notifications (r : Rendering) (page : Z) :
  notifications (effects (handleGoToPage r page)) =
  match onPageChanged (props r) with
  | CbFunction => [payload_of r]
  | _ => []
  end.
Proof.
  rewrite handleGoToPage_run.
  destruct (onPageChanged (props r)) as [| | |[|]]; reflexivity.
Qed.

(** C6: for every integer target, [handleGoToPage] sets the current page to
    [max(0, min(target, totalPages))]; the lower bound is 0, and moving left
    from page 1, the page of the first rendering, gives page 0. *)
Theorem handleGoToPage_clamps (r : Rendering) (target : Z) :
  currentPage (after r (handleGoToPage r target)) =
    Z.max 0 (Z.min target (totalPages r)) /\
  currentPage (after (mount (props r)) (handleMoveLeft (mount (props r)))) = 0.
Proof.
  split.
  - apply handleGoToPage_commit.
  - unfold handleMoveLeft. rewrite handleGoToPage_commit.
    cbn [mount currentPage]. lia.
Qed.

(** C7: when [onPageChanged] is a function, [handleGoToPage] queues the
    clamped target and then calls the function once, with the object
    [{ currentPage, totalPages, pageLimit, totalRecords }] whose
    [currentPage] is the value the rendering read, not the value queued. *)
Theorem handleGoToPage_payload_stale (r : Rendering) (target : Z) :
  onPageChanged (props r) = CbFunction ->
  handleGoToPage r target =
    ([SetCurrentPage (Z.max 0 (Z.min target (totalPages r)));
      OnPageChanged {| info_currentPage := currentPage r;
                       info_totalPages := totalPages r;
                       info_pageLimit := pageLimit (props r);
                       info_totalRecords := totalRecords (props r) |}],
     Returned tt) /\
  currentPage (after r (handleGoToPage r target)) =
    Z.max 0 (Z.min target (totalPages r)).
Proof.
  intros Hcb. split; [|apply handleGoToPage_commit].
  rewrite handleGoToPage_run, Hcb. reflexivity.
Qed.

Lemma handleGoToPage_payload_stale_witness :
  onPageChanged (props ten_pages_at_six) = CbFunction /\
  handleGoToPage ten_pages_at_six 9 =
    ([SetCurrentPage 9;
      OnPageChanged {| info_currentPage := 6; info_totalPages := 10;
                       info_pageLimit := 10; info_totalRecords := 100 |}],
     Returned tt) /\
  currentPage (after ten_pages_at_six (handleGoToPage ten_pages_at_six 9)) = 9.
Proof.
  split; [reflexivity|].
  apply (handleGoToPage_payload_stale ten_pages_at_six 9). reflexivity.
Defined.

(** C8, as the spec states it, fails where the markers are shown: with ten
    pages, two neighbours and page 6, the left marker is in the page array
    and a click on it queues page 5 and calls the callback. *)
Lemma ellipsis_click_not_noop :
  In LEFT_PAGE (rendered_pages ten_pages_at_six) /\
  effects (handleClick ten_pages_at_six LEFT_PAGE) =
    [SetCurrentPage 5; OnPageChanged (payload_of ten_pages_at_six)] /\
  currentPage (after ten_pages_at_six (handleClick ten_pages_at_six LEFT_PAGE)) = 5 /\
  ~ click_is_noop ten_pages_at_six LEFT_PAGE.
Proof.
  split; [|split; [|split]].
  - right; left; reflexivity.
  - reflexivity.
  - reflexivity.
  - intros [Heff _]. discriminate Heff.
Qed.

(** C8, amended: a click on the left marker runs [handleMoveLeft], that is
    [handleGoToPage(currentPage - 1)], and a click on the right marker runs
    [handleMoveRight], that is [handleGoToPage(currentPage + 1)]: the update
    to [max(0, min(currentPage -/+ 1, totalPages))] is queued, and a callback
    that is a function is called. *)
Theorem handleClick_ellipsis_moves (r : Rendering) :
  handleClick r LEFT_PAGE = handleGoToPage r (currentPage r - 1) /\
  handleClick r RIGHT_PAGE = handleGoToPage r (currentPage r + 1) /\
  currentPage (after r (handleClick r LEFT_PAGE)) =
    Z.max 0 (Z.min (currentPage r - 1) (totalPages r)) /\
  currentPage (after r (handleClick r RIGHT_PAGE)) =
    Z.max 0 (Z.min (currentPage r + 1) (totalPages r)) /\
  notifications (effects (handleClick r LEFT_PAGE)) =
    match onPageChanged (props r) with CbFunction => [payload_of r] | _ => [] end /\
  notifications (effects (handleClick r RIGHT_PAGE)) =
    match onPageChanged (props r) with CbFunction => [payload_of r] | _ => [] end.
Proof.
  cbn [handleClick]. unfold handleMoveLeft, handleMoveRight.
  rewrite !handleGoToPage_commit, !handleGoToPage_notifications.
  repeat split.
Qed.

(** C9: when [onPageChanged] is [undefined] or [null], [handleGoToPage]
    returns normally, calls nothing, and the current page still becomes the
    clamped target. *)
Theorem handleGoToPage_without_callback (r : Rendering) (target : Z) :
  onPageChanged (props r) = CbUndefined \/ onPageChanged (props r) = CbNull ->
  completion (handleGoToPage r target) = Returned tt /\
  notifications (effects (handleGoToPage r target)) = [] /\
  currentPage (after r (handleGoToPage r target)) =
    Z.max 0 (Z.min target (totalPages r)).
Proof.
  intros Hcb. rewrite handleGoToPage_commit, handleGoToPage_notifications.
  rewrite handleGoToPage_run.
  destruct Hcb as [-> | ->]; repeat split.
Qed.

Lemma handleGoToPage_without_callback_witness :
  (onPageChanged (props (mount (defaultProps CbUndefined 95))) = CbUndefined \/
   onPageChanged (props (mount (defaultProps CbUndefined 95))) = CbNull) /\
  completion (handleGoToPage (mount (defaultProps CbUndefined 95)) 4) = Returned tt /\
  notifications (effects (handleGoToPage (mount (defaultProps CbUndefined 95)) 4)) = [] /\
  currentPage (after (mount (defaultProps CbUndefined 95))
                 (handleGoToPage (mount (defaultProps CbUndefined 95)) 4)) =
    Z.max 0 (Z.min 4 (totalPages (mount (defaultProps CbUndefined 95)))).
Proof.
  split; [left; reflexivity|].
  apply (handleGoToPage_without_callback (mount (defaultProps CbUndefined 95)) 4).
  left; reflexivity.
Defined.

(** C10: when [onPageChanged] is a function, every run of [handleGoToPage],
    and so every [handleMoveLeft], [handleMoveRight] and click, calls it
    once; also when the clamped target is the current page and the page does
    not change. *)
Theorem handlers_always_notify (r : Rendering) :
  onPageChanged (props r) = CbFunction ->
  (forall page, notifications (effects (handleGoToPage r page)) = [payload_of r]) /\
  notifications (effects (handleMoveLeft r)) = [payload_of r] /\
  notifications (effects (handleMoveRight r)) = [payload_of r] /\
  (forall item, notifications (effects (handleClick r item)) = [payload_of r]) /\
  (forall page,
      Z.max 0 (Z.min page (totalPages r)) = currentPage r ->
      currentPage (after r (handleGoToPage r page)) = currentPage r /\
      notifications (effects (handleGoToPage r page)) = [payload_of r]).
Proof.
  intros Hcb.
  assert (Hgo : forall page,
             notifications (effects (handleGoToPage r page)) = [payload_of r]).
  { intros page. now rewrite handleGoToPage_notifications, Hcb. }
  repeat split; try apply Hgo.
  - intros [n| |]; apply Hgo.
  - now rewrite handleGoToPage_commit.
Qed.

Lemma handlers_always_notify_witness :
  onPageChanged (props ten_pages_at_six) = CbFunction /\
  currentPage (after ten_pages_at_six (handleClick ten_pages_at_six (Page 6))) = 6 /\
  notifications (effects (handleClick ten_pages_at_six (Page 6))) =
    [payload_of ten_pages_at_six].
Proof.
  split; [reflexivity|].
  destruct (handlers_always_notify ten_pages_at_six eq_refl)
    as (_ & _ & _ & _ & Hsame).
  exact (Hsame 6 eq_refl).
Defined.

(** ** Clicks on what is rendered *)

Lemma pageNeighbors_bounds (r : Rendering) : 0 <= pageNeighbors r <= 2.
Proof. unfold pageNeighbors. lia. Qed.

(** The left marker is rendered only when the window starts after page 2. *)
Lemma rendered_left_marker (currentPage totalPages pageNeighbors : Z) :
  0 <= pageNeighbors -> 1 <= currentPage <= totalPages ->
  In LEFT_PAGE (pages currentPage totalPages pageNeighbors) ->
  2 < currentPage - pageNeighbors.
Proof.
  intros Hn Hc. few_or_many totalPages pageNeighbors; intros Hin; try lia;
    exfalso; revert Hin; absent_marker.
Qed.

(** The right marker is rendered only when the window ends before the page
    next to the last. *)
Lemma rendered_right_marker (currentPage totalPages pageNeighbors : Z) :
  0 <= pageNeighbors -> 1 <= currentPage <= totalPages ->
  In RIGHT_PAGE (pages currentPage totalPages pageNeighbors) ->
  currentPage + pageNeighbors < totalPages - 1.
Proof.
  intros Hn Hc. few_or_many totalPages pageNeighbors; intros Hin; try lia;
    exfalso; revert Hin; absent_marker.
Qed.

(** Every page number rendered is a page. *)
Lemma rendered_page_number (n currentPage totalPages pageNeighbors : Z) :
  0 <= pageNeighbors -> 1 <= currentPage <= totalPages ->
  In (Page n) (pages currentPage totalPages pageNeighbors) ->
  1 <= n <= totalPages.
Proof.
  intros Hn Hc Hin.
  assert (Hnum : forall a b, In (Page n) (numbers (range a b)) -> a <= n <= b).
  { intros a b H. now apply numbers_In, range_In in H. }
  revert Hin. few_or_many totalPages pageNeighbors; intros Hin;
    repeat (apply in_app_or in Hin; destruct Hin as [Hin|Hin]);
    try (apply Hnum in Hin; lia);
    cbn [In] in Hin; intuition (try discriminate; try congruence);
    match goal with H : Page _ = Page _ |- _ => injection H as <-; lia end.
Qed.

(** A click on a rendered marker moves by exactly one page, and a click on
    any rendered element keeps the current page in [1, totalPages]: page 0
    is reached by the handlers, not by the buttons. *)
Lemma rendered_click_stays_in_range (r : Rendering) (item : PageItem) :
  1 <= currentPage r <= totalPages r ->
  In item (rendered_pages r) ->
  1 <= currentPage (after r (handleClick r item)) <= totalPages r /\
  (item = LEFT_PAGE ->
   currentPage (after r (handleClick r item)) = currentPage r - 1) /\
  (item = RIGHT_PAGE ->
   currentPage (after r (handleClick r item)) = currentPage r + 1).
Proof.
  intros Hc Hin. pose proof (pageNeighbors_bounds r) as Hn.
  unfold rendered_pages in Hin.
  destruct item as [n| |]; cbn [handleClick];
    unfold handleMoveLeft, handleMoveRight; rewrite handleGoToPage_commit.
  - apply rendered_page_number in Hin; [|lia..].
    repeat split; try discriminate; lia.
  - apply rendered_left_marker in Hin; [|lia..].
    repeat split; try discriminate; lia.
  - apply rendered_right_marker in Hin; [|lia..].
    repeat split; try discriminate; lia.
Qed.

(** Moving left at the lower bound changes nothing and still notifies. *)
Example move_left_at_zero :
  handleMoveLeft {| props := defaultProps CbFunction 95; currentPage := 0 |} =
  ([SetCurrentPage 0;
    OnPageChanged {| info_currentPage := 0; info_totalPages := 10;
                     info_pageLimit := 10; info_totalRecords := 95 |}],
   Returned tt).
Proof. reflexivity. Qed.

(** A truthy [onPageChanged] that is not a function: the update is queued,
    then the call throws. *)
Example go_to_page_not_callable :
  handleGoToPage (mount (defaultProps (CbValue true) 95)) 2 =
  ([SetCurrentPage 2], Threw TypeError).
Proof. reflexivity. Qed.

(** No record, no page, nothing rendered. *)
Example no_records_renders_nothing :
  rendered_pages (mount (defaultProps CbFunction 0)) = [].
Proof. reflexivity. Qed.

(** ** More on the page window *)

(** The length of the page array, for a current page in range. *)
Lemma pages_length_general (currentPage totalPages pageNeighbors : Z) :
  0 <= pageNeighbors ->
  0 <= totalPages ->
  1 <= currentPage <= Z.max 1 totalPages ->
  Z.of_nat (length (pages currentPage totalPages pageNeighbors)) =
  if totalPages >? pageNeighbors * 2 + 5
  then pageNeighbors * 2 + 5 else totalPages.
Proof.
  intros Hn Ht Hc.
  destruct (Z.gtb_spec totalPages (pageNeighbors * 2 + 5)) as [Hmany|Hfew].
  - spill_cases;
      rewrite !length_app, numbers_length; cbn [length];
      rewrite !Nat2Z.inj_add, range_length by lia; lia.
  - rewrite pages_all, numbers_length, range_length by lia. lia.
Qed.

Lemma map_index_length {A B : Type} (f : A -> nat -> B) (l : list A) (i : nat) :
  length (map_index f l i) = length l.
Proof.
  revert i; induction l as [|x l IH]; intros i; cbn [map_index length].
  - reflexivity.
  - now rewrite IH.
Qed.

(** X1: whatever the props, with a page count that is not negative and the
    current page in [1, totalPages] (page 1 when there is no page), one
    button is rendered per element of the page array and there are at most
    nine: all the pages when there are at most [2 * pageNeighbors + 5], and
    [2 * pageNeighbors + 5] buttons otherwise. *)
Theorem render_at_most_nine_buttons (r : Rendering) :
  0 <= totalPages r ->
  1 <= currentPage r <= Z.max 1 (totalPages r) ->
  Z.of_nat (length (render r)) =
    (if totalPages r >? pageNeighbors r * 2 + 5
     then pageNeighbors r * 2 + 5 else totalPages r) /\
  (length (render r) <= 9)%nat.
Proof.
  intros Ht Hc. pose proof (pageNeighbors_bounds r) as Hn.
  assert (Hlen : Z.of_nat (length (render r)) =
                 if totalPages r >? pageNeighbors r * 2 + 5
                 then pageNeighbors r * 2 + 5 else totalPages r).
  { unfold render, rendered_pages. rewrite map_index_length.
    apply pages_length_general; lia. }
  split; [exact Hlen|].
  destruct (Z.gtb_spec (totalPages r) (pageNeighbors r * 2 + 5)); lia.
Qed.

Lemma render_at_most_nine_buttons_witness :
  Z.of_nat (length (render ten_pages_at_six)) = 9 /\
  (length (render ten_pages_at_six) <= 9)%nat.
Proof. apply (render_at_most_nine_buttons ten_pages_at_six); cbn; lia. Defined.



Lemma page_numbers_numbers (l : list Z) : page_numbers (numbers l) = l.
Proof.
  unfold numbers. induction l as [|x l IH]; cbn [map page_numbers];
    [reflexivity | now rewrite IH].
Qed.

Lemma page_numbers_app (l l' : list PageItem) :
  page_numbers (l ++ l') = page_numbers l ++ page_numbers l'.
Proof.
  induction l as [|[n| |] l IH]; cbn [app page_numbers]; [reflexivity|..];
    now rewrite IH.
Qed.

Lemma page_numbers_In (n : Z) (l : list PageItem) :
  In n (page_numbers l) <-> In (Page n) l.
Proof.
  induction l as [|[m| |] l IH]; cbn [page_numbers In]; [tauto|..].
  - rewrite IH. split; intros [H|H]; auto; left; congruence.
  - rewrite IH. split; [auto | intros [H|H]; [discriminate | exact H]].
  - rewrite IH. split; [auto | intros [H|H]; [discriminate | exact H]].
Qed.

Lemma range_from_sorted (a : Z) (n : nat) : StronglySorted Z.lt (range_from a n).
Proof.
  revert a; induction n as [|n IH]; intros a; cbn [range_from]; constructor.
  - apply IH.
  - apply Forall_forall. intros x Hx. apply range_from_In in Hx. lia.
Qed.

(** A sorted run between a smaller first and a larger last element. *)
Lemma sorted_between (lo hi : Z) (l : list Z) :
  StronglySorted Z.lt l -> (forall x, In x l -> lo < x < hi) -> lo < hi ->
  StronglySorted Z.lt (lo :: l ++ [hi]).
Proof.
  intros Hs Hin Hlt. constructor.
  - induction Hs as [|x l Hs IH Hx]; cbn [app].
    + repeat constructor.
    + constructor.
      * apply IH. intros y Hy. apply Hin. now right.
      * apply Forall_app. split; [exact Hx|].
        constructor; [|constructor]. apply (Hin x). now left.
  - apply Forall_app. split.
    + apply Forall_forall. intros x Hx. now apply Hin.
    + now repeat constructor.
Qed.

(** X3: with more than [2 * pageNeighbors + 5] pages the page array has one
    of three forms.  Up to page [pageNeighbors + 2] it is 1, 2 ..
    [2 * pageNeighbors + 3], the right marker, the last page; from page
    [totalPages - pageNeighbors - 1] on it is 1, the left marker, the
    [2 * pageNeighbors + 2] pages before the last, the last page; between
    the two it is 1, the left marker, the current page with its neighbours
    on both sides, the right marker, the last page. *)
Theorem pages_window_shapes (currentPage totalPages pageNeighbors : Z) :
  0 <= pageNeighbors ->
  pageNeighbors * 2 + 5 < totalPages ->
  1 <= currentPage <= totalPages ->
  (currentPage <= pageNeighbors + 2 ->
   pages currentPage totalPages pageNeighbors =
   Page 1 :: numbers (range 2 (pageNeighbors * 2 + 3))
     ++ [RIGHT_PAGE; Page totalPages]) /\
  (totalPages - pageNeighbors - 1 <= currentPage ->
   pages currentPage totalPages pageNeighbors =
   Page 1 :: LEFT_PAGE
     :: numbers (range (totalPages - pageNeighbors * 2 - 2) (totalPages - 1))
     ++ [Page totalPages]) /\
  (pageNeighbors + 2 < currentPage < totalPages - pageNeighbors - 1 ->
   pages currentPage totalPages pageNeighbors =
   Page 1 :: LEFT_PAGE
     :: numbers (range (currentPage - pageNeighbors) (currentPage + pageNeighbors))
     ++ [RIGHT_PAGE; Page totalPages]).
Proof.
  intros Hn Ht Hc. split; [|split]; intros Hpos.
  - now rewrite pages_right_spill by lia.
  - now rewrite pages_left_spill by lia.
  - now rewrite pages_both_spill by lia.
Qed.

Lemma pages_window_shapes_witness :
  pages 2 20 1 = [Page 1; Page 2; Page 3; Page 4; Page 5; RIGHT_PAGE; Page 20] /\
  pages 19 20 1 = [Page 1; LEFT_PAGE; Page 16; Page 17; Page 18; Page 19; Page 20] /\
  pages 9 20 1 = [Page 1; LEFT_PAGE; Page 8; Page 9; Page 10; RIGHT_PAGE; Page 20].
Proof.
  split; [|split].
  - apply (pages_window_shapes 2 20 1); lia.
  - apply (pages_window_shapes 19 20 1); lia.
  - apply (pages_window_shapes 9 20 1); lia.
Defined.

(** X4: with the current page in [1, totalPages], the page numbers of the
    array are strictly increasing from left to right and all lie in
    [1, totalPages]: no page is shown twice or out of order. *)
Theorem pages_numbers_increasing (currentPage totalPages pageNeighbors : Z) :
  0 <= pageNeighbors ->
  1 <= currentPage <= totalPages ->
  StronglySorted Z.lt (page_numbers (pages currentPage totalPages pageNeighbors)) /\
  Forall (fun n => 1 <= n <= totalPages)
         (page_numbers (pages currentPage totalPages pageNeighbors)).
Proof.
  intros Hn Hc. split.
  - few_or_many totalPages pageNeighbors;
      rewrite ?page_numbers_app, ?page_numbers_numbers; cbn [page_numbers app];
      rewrite ?page_numbers_app, ?page_numbers_numbers; cbn [page_numbers app].
    + apply range_from_sorted.
    + apply sorted_between; [apply range_from_sorted | | lia].
      intros x Hx. apply range_In in Hx. lia.
    + apply sorted_between; [apply range_from_sorted | | lia].
      intros x Hx. apply range_In in Hx. lia.
    + apply sorted_between; [apply range_from_sorted | | lia].
      intros x Hx. apply range_In in Hx. lia.
  - apply Forall_forall. intros n Hin. apply page_numbers_In in Hin.
    now apply rendered_page_number in Hin.
Qed.

Lemma pages_numbers_increasing_witness :
  StronglySorted Z.lt (page_numbers (pages 6 10 2)) /\
  Forall (fun n => 1 <= n <= 10) (page_numbers (pages 6 10 2)).
Proof. apply (pages_numbers_increasing 6 10 2); lia. Defined.

Lemma range_NoDup (a b : Z) : NoDup (range a b).
Proof.
  unfold range. generalize (Z.to_nat (b - a + 1)) as n. intros n. revert a.
  induction n as [|n IH]; intros a; cbn [range_from]; constructor.
  - intros Hin. apply range_from_In in Hin. lia.
  - apply IH.
Qed.

Lemma numbers_NoDup (l : list Z) : NoDup l -> NoDup (numbers l).
Proof.
  induction 1 as [|x l Hx Hl IH]; cbn [numbers map]; constructor.
  - intros Hin. now apply numbers_In in Hin.
  - exact IH.
Qed.

(** Turn a membership hypothesis on a page array built from page numbers,
    markers and intervals into equations and bounds. *)
Ltac in_facts H :=
  repeat match type of H with
    | In _ (_ ++ _) => apply in_app_or in H; destruct H as [H|H]
    | In _ (_ :: _) => destruct H as [H|H]
    | In _ [] => destruct H
    | In _ (numbers (range _ _)) =>
        let x := fresh "x" in
        let Heq := fresh "Heq" in
        unfold numbers in H; apply in_map_iff in H;
        destruct H as (x & Heq & H); apply range_In in H;
        first [ discriminate Heq | injection Heq as Heq | subst ]
    end.

(** Close a goal from equations between array elements and bounds. *)
Ltac page_arith :=
  repeat match goal with
    | H : Page _ = Page _ |- _ => injection H as H
    end;
  first [ discriminate | lia | congruence ].

(** With the current page in range no element occurs twice. *)
Lemma pages_NoDup (currentPage totalPages pageNeighbors : Z) :
  0 <= pageNeighbors -> 1 <= currentPage <= totalPages ->
  NoDup (pages currentPage totalPages pageNeighbors).
Proof.
  intros Hn Hc. few_or_many totalPages pageNeighbors; cbn [app];
    repeat first
      [ apply NoDup_nil
      | apply numbers_NoDup, range_NoDup
      | apply NoDup_cons
      | apply NoDup_app ];
    try (intros Hin; in_facts Hin; now page_arith);
    intros a Hin Hin'; in_facts Hin; in_facts Hin'; page_arith.
Qed.

(** A page near the current page is an element of the page array. *)
Lemma near_current_In (p currentPage totalPages pageNeighbors : Z) :
  0 <= pageNeighbors ->
  1 <= currentPage <= totalPages ->
  1 <= p <= totalPages ->
  currentPage - pageNeighbors <= p <= currentPage + pageNeighbors ->
  In (Page p) (pages currentPage totalPages pageNeighbors).
Proof.
  intros Hn Hc Hp Hnear. few_or_many totalPages pageNeighbors.
  - apply numbers_In, range_In. lia.
  - destruct (Z.eq_dec p 1) as [->|Hne]; [now left|].
    apply in_or_app; right. apply in_or_app; left.
    apply numbers_In, range_In. lia.
  - destruct (Z.eq_dec p totalPages) as [->|Hne].
    + apply in_or_app; right. apply in_or_app; right. now left.
    + apply in_or_app; right. apply in_or_app; left.
      apply numbers_In, range_In. lia.
  - apply in_or_app; right. apply in_or_app; left.
    apply numbers_In, range_In. lia.
Qed.

(** X6: with the current page in [1, totalPages], the left marker is shown
    exactly when there are more than [2 * pageNeighbors + 5] pages and the
    neighbour window starts after page 2, and the right marker exactly when
    there are that many pages and the window ends before page
    [totalPages - 1]. *)
Theorem markers_shown_iff (currentPage totalPages pageNeighbors : Z) :
  0 <= pageNeighbors ->
  1 <= currentPage <= totalPages ->
  (In LEFT_PAGE (pages currentPage totalPages pageNeighbors) <->
   pageNeighbors * 2 + 5 < totalPages /\ 2 < currentPage - pageNeighbors) /\
  (In RIGHT_PAGE (pages currentPage totalPages pageNeighbors) <->
   pageNeighbors * 2 + 5 < totalPages /\
   currentPage + pageNeighbors < totalPages - 1).
Proof.
  intros Hn Hc.
  few_or_many totalPages pageNeighbors;
    (split; (split; [intros Hin | intros [H1 H2]]));
    try lia;
    try (exfalso; revert Hin; absent_marker);
    try (right; left; reflexivity);
    try (apply in_or_app; right; apply in_or_app; right; left; reflexivity).
Qed.

Lemma markers_shown_iff_witness :
  (In LEFT_PAGE (pages 6 10 2) <-> 2 * 2 + 5 < 10 /\ 2 < 6 - 2) /\
  (In RIGHT_PAGE (pages 6 10 2) <-> 2 * 2 + 5 < 10 /\ 6 + 2 < 10 - 1).
Proof. apply (markers_shown_iff 6 10 2); lia. Defined.

(** ** Labels and buttons *)

Lemma number_to_string_inj (n m : Z) :
  number_to_string n = number_to_string m -> n = m.
Proof.
  unfold number_to_string. intros Heq.
  assert (Hnil : forall z, Z.to_int z <> Decimal.Pos Decimal.Nil /\
                           Z.to_int z <> Decimal.Neg Decimal.Nil).
  { intros [|p|p]; cbn; split; try discriminate;
      intros [= H]; now apply Unsigned.to_uint_nonnil in H. }
  apply to_int_inj.
  assert (Hsome : Some (Z.to_int n) = Some (Z.to_int m)).
  { rewrite <- (NilZero.isi (Z.to_int n)), <- (NilZero.isi (Z.to_int m));
      try apply Hnil.
    now rewrite Heq. }
  now injection Hsome.
Qed.

Lemma label_inj (a b : PageItem) :
  PAGE_INFO.label a = PAGE_INFO.label b -> a = b.
Proof.
  destruct a as [n| |], b as [m| |]; cbn; intros Heq;
    try reflexivity; try discriminate Heq.
  injection Heq as Heq. f_equal. now apply number_to_string_inj.
Qed.

(** X7: the label tells the buttons apart: two elements of a page array
    have the same label exactly when they are the same element, so
    "Go to page N" names one page only and is never taken for a marker. *)
Theorem label_determines_page (a b : PageItem) :
  PAGE_INFO.label a = PAGE_INFO.label b <-> a = b.
Proof.
  split.
  - apply label_inj.
  - intros ->. reflexivity.
Qed.

Lemma map_index_In {A B : Type} (f : A -> nat -> B) (l : list A) (i : nat) (y : B) :
  In y (map_index f l i) -> exists x k, In x l /\ y = f x k.
Proof.
  revert i; induction l as [|x l IH]; intros i; cbn [map_index In]; [tauto|].
  intros [<-|Hin].
  - exists x, i. auto.
  - destruct (IH _ Hin) as (x' & k & Hx & ->). exists x', k. auto.
Qed.

Lemma map_index_proj {A B C : Type} (f : A -> nat -> B) (g : B -> C) (h : A -> C)
      (l : list A) (i : nat) :
  (forall x k, g (f x k) = h x) -> map g (map_index f l i) = map h l.
Proof.
  intros Hgf. revert i; induction l as [|x l IH]; intros i; cbn [map_index map].
  - reflexivity.
  - now rewrite Hgf, IH.
Qed.

Lemma map_index_keys {A B : Type} (f : A -> nat -> B) (g : B -> nat)
      (l : list A) (i : nat) :
  (forall x k, g (f x k) = k) -> map g (map_index f l i) = seq i (length l).
Proof.
  intros Hgf. revert i; induction l as [|x l IH]; intros i;
    cbn [map_index map length seq].
  - reflexivity.
  - now rewrite Hgf, IH.
Qed.

Lemma NoDup_map_inj {A B : Type} (f : A -> B) (l : list A) :
  (forall x y, f x = f y -> x = y) -> NoDup l -> NoDup (map f l).
Proof.
  intros Hinj. induction 1 as [|x l Hx Hl IH]; cbn [map]; constructor.
  - intros Hin. apply in_map_iff in Hin. destruct Hin as (y & Heq & Hy).
    apply Hinj in Heq. now subst y.
  - exact IH.
Qed.

(** In a list without repetition, a test that holds for one element only
    selects exactly one position. *)
Lemma filter_unique {A : Type} (h : A -> bool) (x : A) (l : list A) :
  (forall y, h y = true <-> y = x) -> NoDup l -> In x l ->
  length (filter h l) = 1%nat.
Proof.
  intros Hh. induction 1 as [|y l Hy Hl IH]; intros Hin; [destruct Hin|].
  cbn [filter]. destruct (h y) eqn:Hhy.
  - apply Hh in Hhy. subst y. cbn [length]. f_equal.
    assert (Hnone : forall z, In z l -> h z = false).
    { intros z Hz. destruct (h z) eqn:Hhz; [|reflexivity].
      apply Hh in Hhz. now subst z. }
    clear -Hnone. induction l as [|z l IHl]; [reflexivity|].
    cbn [filter]. rewrite (Hnone z) by now left.
    apply IHl. intros w Hw. apply Hnone. now right.
  - destruct Hin as [->|Hin]; [|now apply IH].
    assert (h x = true) by now apply Hh. congruence.
Qed.

(** What [render] makes of an element of the page array. *)
Lemma render_In (r : Rendering) (b : Button) :
  In b (render r) ->
  exists page,
    In page (rendered_pages r) /\
    active b = isActivePage r page /\
    title b = PAGE_INFO.label page /\
    aria_label b = PAGE_INFO.label page /\
    children b = PAGE_INFO.content page /\
    onClick b = handleClick r page.
Proof.
  unfold render. intros Hin. apply map_index_In in Hin.
  destruct Hin as (page & k & Hpage & ->). exists page. cbn. auto 10.
Qed.

Lemma map_index_In_intro {A B : Type} (f : A -> nat -> B) (l : list A) (i : nat)
      (x : A) :
  In x l -> exists k, In (f x k) (map_index f l i).
Proof.
  revert i; induction l as [|y l IH]; intros i; cbn [map_index In]; [tauto|].
  intros [->|Hin].
  - exists i. now left.
  - destruct (IH (S i) Hin) as (k & Hk). exists k. now right.
Qed.

Lemma filter_map_index_length {A B : Type} (f : A -> nat -> B) (g : B -> bool)
      (h : A -> bool) (l : list A) (i : nat) :
  (forall x k, g (f x k) = h x) ->
  length (filter g (map_index f l i)) = length (filter h l).
Proof.
  intros Hgf. revert i; induction l as [|x l IH]; intros i;
    cbn [map_index filter]; [reflexivity|].
  rewrite Hgf. destruct (h x); cbn [length]; now rewrite IH.
Qed.

Lemma isActivePage_iff (r : Rendering) (page : PageItem) :
  isActivePage r page = true <-> page = Page (currentPage r).
Proof.
  destruct page as [n| |]; cbn [isActivePage]; [|split; discriminate..].
  rewrite Z.eqb_eq. split; [now intros -> | now intros [= ->]].
Qed.

(** X5: with the current page in [1, totalPages], every page within
    [pageNeighbors] of the current page has a button, labelled
    "Go to page N", that shows the page number and goes to that page. *)
Theorem neighbours_are_rendered (r : Rendering) (p : Z) :
  1 <= currentPage r <= totalPages r ->
  1 <= p <= totalPages r ->
  currentPage r - pageNeighbors r <= p <= currentPage r + pageNeighbors r ->
  exists b,
    In b (render r) /\
    children b = Number p /\
    aria_label b = ("Go to page " ++ number_to_string p)%string /\
    onClick b = handleGoToPage r p.
Proof.
  intros Hc Hp Hnear. pose proof (pageNeighbors_bounds r) as Hn.
  assert (Hin : In (Page p) (rendered_pages r)).
  { unfold rendered_pages. apply near_current_In; lia. }
  unfold render.
  eapply map_index_In_intro in Hin. destruct Hin as (k & Hk).
  eexists. split; [exact Hk|]. cbn. auto.
Qed.

Lemma neighbours_are_rendered_witness :
  exists b,
    In b (render ten_pages_at_six) /\
    children b = Number 8 /\
    aria_label b = "Go to page 8"%string /\
    onClick b = handleGoToPage ten_pages_at_six 8.
Proof.
  apply (neighbours_are_rendered ten_pages_at_six 8); cbn; lia.
Defined.

(** X8: with the current page in [1, totalPages], exactly one button is
    highlighted, and a button is highlighted exactly when it shows the
    current page number. *)
Theorem render_one_active (r : Rendering) :
  1 <= currentPage r <= totalPages r ->
  length (filter active (render r)) = 1%nat /\
  (forall b, In b (render r) ->
             (active b = true <-> children b = Number (currentPage r))).
Proof.
  intros Hc. pose proof (pageNeighbors_bounds r) as Hn. split.
  - unfold render.
    rewrite (filter_map_index_length _ active (isActivePage r))
      by reflexivity.
    apply (filter_unique _ (Page (currentPage r))).
    + apply isActivePage_iff.
    + apply pages_NoDup; lia.
    + apply near_current_In; lia.
  - intros b Hb. apply render_In in Hb.
    destruct Hb as (page & _ & -> & _ & _ & -> & _).
    rewrite isActivePage_iff.
    destruct page as [n| |]; cbn; split; intros H;
      try discriminate H; congruence.
Qed.

Lemma render_one_active_witness :
  length (filter active (render ten_pages_at_six)) = 1%nat /\
  (forall b, In b (render ten_pages_at_six) ->
             (active b = true <-> children b = Number 6)).
Proof. apply (render_one_active ten_pages_at_six); cbn; lia. Defined.

(** X9: the keys of the buttons are their positions 0, 1, 2, ..., and with
    the current page in [1, totalPages] no two buttons have the same
    label. *)
Theorem render_labels_distinct (r : Rendering) :
  map key (render r) = seq 0 (length (render r)) /\
  (1 <= currentPage r <= totalPages r -> NoDup (map aria_label (render r))) /\
  (forall b, In b (render r) -> title b = aria_label b).
Proof.
  split; [|split].
  - unfold render. rewrite map_index_length. now apply map_index_keys.
  - intros Hc. pose proof (pageNeighbors_bounds r) as Hn.
    unfold render.
    rewrite (map_index_proj _ aria_label PAGE_INFO.label) by reflexivity.
    apply NoDup_map_inj; [apply label_inj|].
    apply pages_NoDup; lia.
  - intros b Hb. apply render_In in Hb.
    destruct Hb as (page & _ & _ & -> & -> & _). reflexivity.
Qed.

Lemma render_labels_distinct_witness :
  1 <= currentPage ten_pages_at_six <= totalPages ten_pages_at_six /\
  NoDup (map aria_label (render ten_pages_at_six)).
Proof.
  split; [cbn; lia|].
  apply (render_labels_distinct ten_pages_at_six). cbn; lia.
Defined.

(** ** Clicks and what they reach *)

Lemma totalPages_after {A : Type} (r : Rendering) (h : Handler A) :
  totalPages (after r h) = totalPages r.
Proof. reflexivity. Qed.

Lemma pageNeighbors_after {A : Type} (r : Rendering) (h : Handler A) :
  pageNeighbors (after r h) = pageNeighbors r.
Proof. reflexivity. Qed.

(** Without pages nothing is rendered. *)
Lemma rendered_pages_none (r : Rendering) :
  totalPages r = 0 -> rendered_pages r = [].
Proof.
  intros Ht. pose proof (pageNeighbors_bounds r) as Hn.
  unfold rendered_pages. rewrite pages_all by lia.
  now rewrite Ht.
Qed.

(** X10: with the current page in [1, totalPages], a click on the button
    that shows page number [n] makes [n] the current page, and in the
    rendering that follows that page is still shown and is the highlighted
    one. *)
Theorem click_page_goes_there (r : Rendering) (b : Button) (n : Z) :
  1 <= currentPage r <= totalPages r ->
  In b (render r) ->
  children b = Number n ->
  currentPage (after r (onClick b)) = n /\
  In (Page n) (rendered_pages (after r (onClick b))) /\
  isActivePage (after r (onClick b)) (Page n) = true.
Proof.
  intros Hc Hb Hn. pose proof (pageNeighbors_bounds r) as Hnb.
  apply render_In in Hb.
  destruct Hb as (page & Hpage & _ & _ & _ & Hchild & ->).
  rewrite Hn in Hchild. destruct page as [m| |]; try discriminate Hchild.
  injection Hchild as ->.
  apply rendered_page_number in Hpage; [|lia..].
  assert (Hgo : currentPage (after r (handleClick r (Page m))) = m).
  { cbn [handleClick]. rewrite handleGoToPage_commit. lia. }
  split; [exact Hgo|]. split.
  - unfold rendered_pages.
    rewrite totalPages_after, pageNeighbors_after, Hgo.
    apply near_current_In; lia.
  - apply isActivePage_iff. now rewrite Hgo.
Qed.

Lemma click_page_goes_there_witness :
  exists b,
    In b (render ten_pages_at_six) /\ children b = Number 8 /\
    currentPage (after ten_pages_at_six (onClick b)) = 8.
Proof.
  pose (b8 := {| key := 6; active := false;
                 title := "Go to page 8"; aria_label := "Go to page 8";
                 children := Number 8;
                 onClick := handleClick ten_pages_at_six (Page 8) |}).
  assert (Hin : In b8 (render ten_pages_at_six))
    by (do 6 right; left; reflexivity).
  exists b8. split; [exact Hin|]. split; [reflexivity|].
  apply (click_page_goes_there ten_pages_at_six b8 8);
    [cbn; lia | exact Hin | reflexivity].
Defined.

(** X11: with the current page in [1, totalPages], a click on a button that
    shows ['...'] moves by exactly one page and stays in [1, totalPages]:
    the button labelled "Previous page" goes to [currentPage - 1], the one
    labelled "Next page" to [currentPage + 1]. *)
Theorem marker_click_moves_one (r : Rendering) (b : Button) :
  1 <= currentPage r <= totalPages r ->
  In b (render r) ->
  children b = Text "..." ->
  1 <= currentPage (after r (onClick b)) <= totalPages r /\
  ((aria_label b = "Previous page"%string /\
    currentPage (after r (onClick b)) = currentPage r - 1) \/
   (aria_label b = "Next page"%string /\
    currentPage (after r (onClick b)) = currentPage r + 1)).
Proof.
  intros Hc Hb Hdots. apply render_In in Hb.
  destruct Hb as (page & Hpage & _ & _ & -> & Hchild & ->).
  destruct (rendered_click_stays_in_range r page Hc Hpage) as (Hin & Hl & Hr).
  split; [exact Hin|].
  rewrite Hdots in Hchild.
  destruct page as [m| |]; [discriminate Hchild | left | right];
    (split; [reflexivity | auto]).
Qed.

Lemma marker_click_moves_one_witness :
  exists b,
    In b (render ten_pages_at_six) /\ children b = Text "..." /\
    aria_label b = "Previous page"%string /\
    currentPage (after ten_pages_at_six (onClick b)) = 5.
Proof.
  pose (b1 := {| key := 1; active := false;
                 title := "Previous page"; aria_label := "Previous page";
                 children := Text "...";
                 onClick := handleClick ten_pages_at_six LEFT_PAGE |}).
  assert (Hin : In b1 (render ten_pages_at_six)) by (right; left; reflexivity).
  exists b1. split; [exact Hin|]. split; [reflexivity|]. split; [reflexivity|].
  destruct (marker_click_moves_one ten_pages_at_six b1) as (_ & [[_ H]|[H _]]);
    [cbn; lia | exact Hin | reflexivity | exact H | discriminate H].
Defined.

(** X12: with fixed props, a record count that is not negative and a
    positive page size, whatever buttons are clicked, the current page is at
    least 1 and at most [totalPages] (it stays 1 when there is no page):
    page 0 is never reached through the buttons. *)
Theorem reachable_in_range (p : Props) (r : Rendering) :
  0 <= totalRecords p -> 0 < pageLimit p ->
  Reachable p r ->
  props r = p /\ 1 <= currentPage r <= Z.max 1 (totalPages r).
Proof.
  intros Hrec Hlim. induction 1 as [|r b Hreach [Hprops Hc] Hb].
  - split; [reflexivity|]. cbn [mount currentPage]. lia.
  - split; [exact Hprops|]. rewrite totalPages_after.
    assert (Ht : 0 <= totalPages r).
    { apply totalPages_nonneg; now rewrite Hprops. }
    apply render_In in Hb. destruct Hb as (page & Hpage & _ & _ & _ & _ & ->).
    destruct (Z.eq_dec (totalPages r) 0) as [Hnone|Hsome].
    + rewrite rendered_pages_none in Hpage by exact Hnone. destruct Hpage.
    + destruct (rendered_click_stays_in_range r page) as (Hin & _);
        [lia | exact Hpage | lia].
Qed.

Lemma reachable_in_range_witness :
  props (after (mount (defaultProps CbFunction 95))
               (handleClick (mount (defaultProps CbFunction 95)) (Page 10)))
    = defaultProps CbFunction 95 /\
  1 <= currentPage (after (mount (defaultProps CbFunction 95))
                      (handleClick (mount (defaultProps CbFunction 95)) (Page 10)))
    <= Z.max 1 (totalPages (mount (defaultProps CbFunction 95))).
Proof.
  apply (reachable_in_range (defaultProps CbFunction 95)
           (after (mount (defaultProps CbFunction 95))
                  (handleClick (mount (defaultProps CbFunction 95)) (Page 10))));
    [cbn; lia | cbn; lia |].
  apply (reach_click _ (mount (defaultProps CbFunction 95))
           {| key := 6; active := false;
              title := "Go to page 10"; aria_label := "Go to page 10";
              children := Number 10;
              onClick := handleClick (mount (defaultProps CbFunction 95)) (Page 10) |}).
  - apply reach_mount.
  - do 6 right; left; reflexivity.
Defined.

(** ** The handlers, composed and at fault *)

(** X13: moving right and then left (in the rendering that follows) comes
    back to the same page when the current page is in [0, totalPages - 1],
    and moving left and then right when it is in [1, totalPages]; at the last
    page moving right is held back by the clamp, so right and then left ends
    one page before. *)
Theorem moves_round_trip (r : Rendering) :
  (0 <= currentPage r < totalPages r ->
   currentPage (after (after r (handleMoveRight r))
                      (handleMoveLeft (after r (handleMoveRight r))))
   = currentPage r) /\
  (0 < currentPage r <= totalPages r ->
   currentPage (after (after r (handleMoveLeft r))
                      (handleMoveRight (after r (handleMoveLeft r))))
   = currentPage r) /\
  (0 < totalPages r -> currentPage r = totalPages r ->
   currentPage (after (after r (handleMoveRight r))
                      (handleMoveLeft (after r (handleMoveRight r))))
   = totalPages r - 1).
Proof.
  unfold handleMoveLeft, handleMoveRight.
  rewrite !handleGoToPage_commit, !totalPages_after.
  repeat split; intros; lia.
Qed.

Lemma moves_round_trip_witness :
  currentPage (after (after ten_pages_at_six (handleMoveRight ten_pages_at_six))
                     (handleMoveLeft
                        (after ten_pages_at_six (handleMoveRight ten_pages_at_six))))
  = 6.
Proof.
  destruct (moves_round_trip ten_pages_at_six) as (Hrl & _ & _).
  apply Hrl. cbn; lia.
Defined.

(** X14: the guard before the callback tests truthiness, not callability.
    A falsy value is skipped like [undefined]: the handler returns normally
    and calls nothing.  A truthy value that is not a function makes the call
    throw a [TypeError], after the update was queued: the page changes all
    the same. *)
Theorem guard_is_truthiness (r : Rendering) (target : Z) :
  (truthy (onPageChanged (props r)) = false ->
   completion (handleGoToPage r target) = Returned tt /\
   notifications (effects (handleGoToPage r target)) = []) /\
  (onPageChanged (props r) = CbValue true ->
   handleGoToPage r target =
     ([SetCurrentPage (Z.max 0 (Z.min target (totalPages r)))], Threw TypeError) /\
   currentPage (after r (handleGoToPage r target)) =
     Z.max 0 (Z.min target (totalPages r))).
Proof.
  split.
  - intros Hfalsy. rewrite handleGoToPage_notifications, handleGoToPage_run.
    destruct (onPageChanged (props r)) as [| | |[|]];
      try discriminate Hfalsy; split; reflexivity.
  - intros Hcb. split; [|apply handleGoToPage_commit].
    rewrite handleGoToPage_run, Hcb. reflexivity.
Qed.

Lemma guard_is_truthiness_witness :
  handleGoToPage (mount (defaultProps (CbValue true) 95)) 4 =
    ([SetCurrentPage 4], Threw TypeError) /\
  currentPage (after (mount (defaultProps (CbValue true) 95))
                 (handleGoToPage (mount (defaultProps (CbValue true) 95)) 4)) = 4.
Proof.
  destruct (guard_is_truthiness (mount (defaultProps (CbValue true) 95)) 4)
    as (_ & Hthrow).
  apply Hthrow. reflexivity.
Defined.

(** X15: with the default page size of 10 and one neighbour, the first
    rendering of more than 70 records shows pages 1 to 5, the right marker
    and the last page, and the first rendering of at most 70 records shows
    no marker. *)
Theorem defaults_first_rendering (cb : JsCallback) (records : Z) :
  0 <= records ->
  (70 < records ->
   rendered_pages (mount (defaultProps cb records)) =
   [Page 1; Page 2; Page 3; Page 4; Page 5; RIGHT_PAGE;
    Page (totalPages (mount (defaultProps cb records)))]) /\
  (records <= 70 ->
   has_ellipsis (rendered_pages (mount (defaultProps cb records))) = false).
Proof.
  intros Hrec.
  pose proof (ceil_div_spec records 10 eq_refl) as Hceil.
  unfold rendered_pages.
  change (totalPages (mount (defaultProps cb records))) with (ceil_div records 10).
  change (pageNeighbors (mount (defaultProps cb records))) with 1.
  change (currentPage (mount (defaultProps cb records))) with 1.
  split; intros Hmany.
  - rewrite pages_right_spill by lia. reflexivity.
  - rewrite pages_all by lia. apply numbers_no_ellipsis.
Qed.

Lemma defaults_first_rendering_witness :
  rendered_pages (mount (defaultProps CbFunction 95)) =
  [Page 1; Page 2; Page 3; Page 4; Page 5; RIGHT_PAGE; Page 10].
Proof.
  destruct (defaults_first_rendering CbFunction 95) as (Hmany & _); [lia|].
  apply Hmany. lia.
Defined.
